(** * Grid specification of tidy3d: [tidy3d/components/grid/grid_spec.py]

    A shallow embedding of the 1D grid strategies ([UniformGrid],
    [CustomGrid], [AutoGrid]), of the per-axis pipeline
    [GridSpec1d.make_coords] (initial boundaries, symmetry fold, PML
    extension) and of [GridSpec.get_wavelength] / [GridSpec.make_grid].

    Numbers.  The source computes on IEEE doubles held in numpy arrays.
    The code is read twice.  In the first reading a coordinate is an exact
    rational ([Q]) and a numpy array of coordinates is a [list Q]; two
    rationals denote the same number when they are [Qeq] ([==]), two arrays
    hold the same numbers when they are related by [Forall2 Qeq], written
    [l1 =l= l2].  This reading gives the structure of the code (order of the
    steps, shapes, error paths) and the values up to rounding.  In the second
    reading ([Module Float64]) the numeric functions are taken on binary64
    numbers, with their rounding: it gives what the program returns where a
    rounded number is compared, passed to a ceiling or to [argmin], and it
    is the reading in which the uniform cell count, the clipping and the
    edge loops of the custom grid and the symmetry fold are stated.

    Failure.  A Python exception is a [Raise]; the two [while] loops of
    [CustomGrid._make_coords_initial] are run with a fuel counter and
    [OutOfFuel] says that the counter was exhausted before the loop
    condition became false.  The informational log line of
    [get_wavelength] has no effect on any result and is left out. *)

From Stdlib Require Import String Bool List ZArith QArith Qabs Qround Lia Lqa.
From Stdlib Require Import Sorting.Sorted.
From Stdlib Require Import Floats.PrimFloat Floats.FloatOps Floats.SpecFloat.
Import ListNotations.

Local Open Scope Q_scope.

(** ** Outcomes of a call *)

Inductive exn : Type :=
| IndexError
| ValueError
| ValidationError
| OverflowError
| SetupError (msg : string).

Inductive outcome (A : Type) : Type :=
| Done (a : A)
| Raise (e : exn)
| OutOfFuel.

Arguments Done {A} a.
Arguments Raise {A} e.
Arguments OutOfFuel {A}.

Definition bind {A B : Type} (m : outcome A) (k : A -> outcome B) : outcome B :=
  match m with
  | Done a => k a
  | Raise e => Raise e
  | OutOfFuel => OutOfFuel
  end.

Notation "x <- m ;; k" := (bind m (fun x => k))
  (at level 61, m at next level, right associativity).

(** ** Arrays of coordinates *)

Definition Coords1D : Type := list Q.

(** Same numbers, position by position. *)
Notation "l1 =l= l2" := (Forall2 Qeq l1 l2) (at level 70, no associativity).

(** [bounds[i]] for an index the caller has already checked. *)
Definition item (l : Coords1D) (i : nat) : Q := nth i l 0.

(** [bounds[0]] and [bounds[-1]] of an array that may be empty. *)
Definition first_item (l : Coords1D) : outcome Q :=
  match l with
  | [] => Raise IndexError
  | x :: _ => Done x
  end.

Definition last_item (l : Coords1D) : outcome Q :=
  match l with
  | [] => Raise IndexError
  | _ :: _ => Done (last l 0)
  end.

(** [np.arange(n)] = 0, 1, ..., n-1 as numbers. *)
Definition arange (n : Z) : list Q :=
  map (fun k => inject_Z (Z.of_nat k)) (seq 0 (Z.to_nat n)).

(** [np.arange(1, n + 1)] = 1, ..., n. *)
Definition arange_up (n : nat) : list Q :=
  map (fun k => inject_Z (Z.of_nat k)) (seq 1 n).

(** [np.arange(n, 0, -1)] = n, n-1, ..., 1. *)
Definition arange_down (n : nat) : list Q := rev (arange_up n).

(** [np.cumsum]: running sums, the first entry being the first element. *)
Fixpoint cumsum_from (acc : Q) (l : list Q) : list Q :=
  match l with
  | [] => []
  | x :: t => (acc + x) :: cumsum_from (acc + x) t
  end.

Definition cumsum (l : list Q) : list Q :=
  match l with
  | [] => []
  | x :: t => x :: cumsum_from x t
  end.

(** [np.argmin]: index of a least entry, the first one on ties;
    [ValueError] on an empty array is [None] here. *)
Fixpoint argmin (l : list Q) : option nat :=
  match l with
  | [] => None
  | x :: t =>
      match argmin t with
      | None => Some 0%nat
      | Some j => if Qle_bool x (nth j t 0) then Some 0%nat else Some (S j)
      end
  end.

(** [a < b] as a test. *)
Definition Qlt_bool (a b : Q) : bool := negb (Qle_bool b a).

(** [np.isclose(a, b)] with numpy's default tolerances:
    [|a - b| <= atol + rtol * |b|], [rtol = 1e-05], [atol = 1e-08]. *)
Definition rtol : Q := 1 # 100000.
Definition atol : Q := 1 # 100000000.

Definition isclose (a b : Q) : bool :=
  Qle_bool (Qabs (a - b)) (atol + rtol * Qabs b).

(** ** External collaborators

    The structure and source classes and the constant [C_0] live in other
    modules of the package; the grid code reads only what is listed here. *)

Definition Vec3 : Type := (Q * Q * Q)%type.

Definition coord0 (v : Vec3) : Q := fst (fst v).
Definition coord1 (v : Vec3) : Q := snd (fst v).
Definition coord2 (v : Vec3) : Q := snd v.

Class Collaborators : Type := {
  Structure : Type;
  geometry_center : Structure -> Vec3;
  geometry_size : Structure -> Vec3;
  SourceType : Type;
  freq0 : SourceType -> Q;
  C_0 : Q
}.

(** A small world for examples: a structure is its (center, size), a
    source is its center frequency, lengths are in micrometers. *)
Definition example_env : Collaborators := {|
  Structure := (Vec3 * Vec3)%type;
  geometry_center := fst;
  geometry_size := snd;
  SourceType := Q;
  freq0 := fun f => f;
  C_0 := 299792458000000
|}.

Inductive Axis : Type := Axis0 | Axis1 | Axis2.

Definition Symmetry : Type := Z.

(** The mesher interface consumed by [AutoGrid]. *)
Record MesherType {env : Collaborators} : Type := {
  parse_structures :
    Axis -> list Structure -> option Q -> Q -> list Q * list Q;
  make_grid_multiple_intervals :
    list Q -> list Q -> Q -> bool -> list (list Q)
}.

(** ** [UniformGrid] *)

Module UniformGrid.

Record t : Type := { dl : Q }.

(** Field [dl: pd.PositiveFloat]. *)
Definition init (dl : Q) : outcome t :=
  if Qlt_bool 0 dl then Done {| dl := dl |} else Raise ValidationError.

(** On exact numbers; the ceiling of the rounded quotient is
    [Float64.UniformGrid.num_cells]. *)
Definition num_cells (self : t) (size : Q) : Z :=
  Z.max (Qceiling (size / dl self)) 1.

Definition dl_snapped (self : t) (size : Q) : Q :=
  if Qlt_bool 0 size then size / inject_Z (num_cells self size) else dl self.

Definition _make_coords_initial (self : t) (center size : Q) : Coords1D :=
  map (fun k => center - size / 2 + k * dl_snapped self size)
      (arange (num_cells self size + 1)).

End UniformGrid.

(** ** [CustomGrid] *)

Module CustomGrid.

Record t : Type := { dl : list Q }.

(** Field [dl: List[pd.PositiveFloat]]: every entry is checked to be
    positive; the field declares no bound on the number of entries. *)
Definition init (dl : list Q) : outcome t :=
  if forallb (Qlt_bool 0) dl then Done {| dl := dl |} else Raise ValidationError.

(** [while bound_coords[0] - dl_min >= bound_min: insert at 0], on exact
    numbers; on binary64 the loop is [Float64.CustomGrid.prepend_loop]. *)
Fixpoint prepend_loop (fuel : nat) (dl_min bound_min : Q) (bound_coords : Coords1D)
  : outcome Coords1D :=
  match fuel with
  | O => OutOfFuel
  | S fuel' =>
      match bound_coords with
      | [] => Raise IndexError
      | x :: _ =>
          if Qle_bool bound_min (x - dl_min)
          then prepend_loop fuel' dl_min bound_min ((x - dl_min) :: bound_coords)
          else Done bound_coords
      end
  end.

(** [while bound_coords[-1] + dl_max <= bound_max: append], on exact
    numbers; on binary64 the loop is [Float64.CustomGrid.append_loop]. *)
Fixpoint append_loop (fuel : nat) (dl_max bound_max : Q) (bound_coords : Coords1D)
  : outcome Coords1D :=
  match fuel with
  | O => OutOfFuel
  | S fuel' =>
      match bound_coords with
      | [] => Raise IndexError
      | _ :: _ =>
          let y := last bound_coords 0 in
          if Qle_bool (y + dl_max) bound_max
          then append_loop fuel' dl_max bound_max (bound_coords ++ [y + dl_max])
          else Done bound_coords
      end
  end.

(** The cumulative boundaries, centred on [center]. *)
Definition centered (self : t) (center : Q) : Coords1D :=
  let bound_coords := 0 :: cumsum (dl self) in
  map (fun x => x + (center - last bound_coords 0 / 2)) bound_coords.

(** The centred boundaries with those outside the domain chopped off, the
    comparisons being made on exact sums; on binary64 the clipping is
    [Float64.CustomGrid.clipped]. *)
Definition clipped (self : t) (center size : Q) : Coords1D :=
  let bound_min := center - size / 2 in
  let bound_max := center + size / 2 in
  let bound_coords := filter (fun x => Qle_bool x bound_max) (centered self center) in
  filter (fun x => Qle_bool bound_min x) bound_coords.

Definition _make_coords_initial (fuel : nat) (self : t) (center size : Q)
  : outcome Coords1D :=
  let bound_min := center - size / 2 in
  let bound_max := center + size / 2 in
  let bound_coords := clipped self center size in
  dl_min <- first_item (dl self) ;;
  dl_max <- last_item (dl self) ;;
  bound_coords <- prepend_loop fuel dl_min bound_min bound_coords ;;
  append_loop fuel dl_max bound_max bound_coords.

End CustomGrid.

(** ** [AutoGrid] *)

Module AutoGrid.

Record t {env : Collaborators} : Type := {
  min_steps_per_wvl : Q;
  max_scale : Q;
  mesher : MesherType
}.

(** Fields [min_steps_per_wvl] ([ge=6.0]) and [max_scale] ([ge=1.2, lt=2.0]). *)
Definition init {env : Collaborators} (min_steps max_sc : Q) (m : MesherType) : outcome t :=
  if Qle_bool 6 min_steps && Qle_bool (12 # 10) max_sc && Qlt_bool max_sc 2
  then Done {| min_steps_per_wvl := min_steps; max_scale := max_sc; mesher := m |}
  else Raise ValidationError.

(** [a[1:] - a[:-1]]. *)
Fixpoint diffs (a : list Q) : list Q :=
  match a with
  | x :: ((y :: _) as t) => (y - x) :: diffs t
  | _ => []
  end.

Definition _make_coords_initial {env : Collaborators} (self : t) (center size : Q)
  (axis : Axis) (structures : list Structure) (wavelength : option Q)
  (is_periodic : bool) : outcome Coords1D :=
  let '(interval_coords, max_dl_list) :=
    parse_structures (mesher self) axis structures wavelength (min_steps_per_wvl self) in
  let len_interval_list := diffs interval_coords in
  let dl_list :=
    make_grid_multiple_intervals (mesher self) max_dl_list len_interval_list
      (max_scale self) is_periodic in
  match dl_list with
  | [] => Raise ValueError
  | _ :: _ =>
      let bound_coords := 0 :: cumsum (List.concat dl_list) in
      origin <- first_item interval_coords ;;
      Done (map (fun x => x + origin) bound_coords)
  end.

End AutoGrid.

(** ** [GridSpec1d] *)

Inductive GridType {env : Collaborators} : Type :=
| Uniform (g : UniformGrid.t)
| Custom (g : CustomGrid.t)
| Auto (g : AutoGrid.t).

Module GridSpec1d.

(** Dispatch of the abstract method [_make_coords_initial]. *)
Definition _make_coords_initial {env : Collaborators} (fuel : nat) (self : GridType)
  (center size : Q) (axis : Axis) (structures : list Structure)
  (wavelength : option Q) (is_periodic : bool) : outcome Coords1D :=
  match self with
  | Uniform g => Done (UniformGrid._make_coords_initial g center size)
  | Custom g => CustomGrid._make_coords_initial fuel g center size
  | Auto g =>
      AutoGrid._make_coords_initial g center size axis structures wavelength is_periodic
  end.

(** The block [if symmetry != 0: ...] of [make_coords], on exact numbers;
    on binary64 the block is [Float64.GridSpec1d.symmetry_fold]. *)
Definition symmetry_fold (center : Q) (symmetry : Symmetry) (bound_coords : Coords1D)
  : outcome Coords1D :=
  if (symmetry =? 0)%Z then Done bound_coords
  else
    match argmin (map (fun x => Qabs (center - x)) bound_coords) with
    | None => Raise ValueError
    | Some center_ind =>
        let shift := center - item bound_coords center_ind in
        let bound_coords := map (fun x => x + shift) bound_coords in
        let bound_coords := filter (fun x => Qle_bool center x) bound_coords in
        Done (map (fun x => 2 * center - x) (rev (tl bound_coords)) ++ bound_coords)
    end.

Definition first_step (bounds : Coords1D) : Q := item bounds 1 - item bounds 0.

Definition last_step (bounds : Coords1D) : Q :=
  last bounds 0 - item bounds (length bounds - 2).

Definition add_left (num_layers : nat * nat) (bounds : Coords1D) : Coords1D :=
  map (fun k => item bounds 0 - first_step bounds * k) (arange_down (fst num_layers)).

Definition add_right (num_layers : nat * nat) (bounds : Coords1D) : Coords1D :=
  map (fun k => last bounds 0 + last_step bounds * k) (arange_up (snd num_layers)).

Definition _add_pml_to_bounds (num_layers : nat * nat) (bounds : Coords1D) : Coords1D :=
  if (length bounds <? 2)%nat then bounds
  else add_left num_layers bounds ++ bounds ++ add_right num_layers bounds.

Definition is_periodic (num_pml_layers : nat * nat) : bool :=
  (fst num_pml_layers + snd num_pml_layers =? 0)%nat.

Definition make_coords {env : Collaborators} (fuel : nat) (self : GridType)
  (center size : Q) (axis : Axis) (structures : list Structure)
  (symmetry : Symmetry) (wavelength : option Q) (num_pml_layers : nat * nat)
  : outcome Coords1D :=
  bound_coords <-
    _make_coords_initial fuel self center size axis structures wavelength
      (is_periodic num_pml_layers) ;;
  bound_coords <- symmetry_fold center symmetry bound_coords ;;
  Done (_add_pml_to_bounds num_pml_layers bound_coords).

End GridSpec1d.

(** ** [GridSpec] *)

Record Coords : Type := { x : Coords1D; y : Coords1D; z : Coords1D }.

Record Grid : Type := { boundaries : Coords }.

Module GridSpec.

Record t {env : Collaborators} : Type := {
  grid_x : GridType;
  grid_y : GridType;
  grid_z : GridType;
  wavelength : option Q
}.

Definition is_auto {env : Collaborators} (mesh : GridType) : bool :=
  match mesh with
  | Auto _ => true
  | _ => false
  end.

Definition auto_grid_used {env : Collaborators} (self : t) : bool :=
  existsb is_auto [grid_x self; grid_y self; grid_z self].

Definition no_wavelength_msg : string :=
  "Automatic grid generation requires the input of 'wavelength' or sources.".

Definition different_freqs_msg : string :=
  "Sources of different central frequencies are supplied. Please supply a 'wavelength' value for 'grid_spec'.".

Definition get_wavelength {env : Collaborators} (self : t) (sources : list SourceType)
  : outcome (option Q) :=
  match wavelength self, auto_grid_used self with
  | Some w, _ => Done (Some w)
  | None, false => Done None
  | None, true =>
      let freqs := map freq0 sources in
      match freqs with
      | [] => Raise (SetupError no_wavelength_msg)
      | f0 :: _ =>
          if negb (forallb (fun f => isclose f f0) freqs)
          then Raise (SetupError different_freqs_msg)
          else Done (Some (C_0 / f0))
      end
  end.

(** [lst[i]] on a Python list. *)
Definition getitem {A : Type} (l : list A) (i : nat) : outcome A :=
  match nth_error l i with
  | Some a => Done a
  | None => Raise IndexError
  end.

Definition make_grid {env : Collaborators} (fuel : nat) (self : t)
  (structures : list Structure)
  (symmetry : Symmetry * Symmetry * Symmetry)
  (sources : list SourceType)
  (num_pml_layers : list (nat * nat)) : outcome Grid :=
  domain <- getitem structures 0 ;;
  let center := geometry_center domain in
  let size := geometry_size domain in
  wavelength <- get_wavelength self sources ;;
  pml_x <- getitem num_pml_layers 0 ;;
  coords_x <-
    GridSpec1d.make_coords fuel (grid_x self) (coord0 center) (coord0 size) Axis0
      structures (fst (fst symmetry)) wavelength pml_x ;;
  pml_y <- getitem num_pml_layers 1 ;;
  coords_y <-
    GridSpec1d.make_coords fuel (grid_y self) (coord1 center) (coord1 size) Axis1
      structures (snd (fst symmetry)) wavelength pml_y ;;
  pml_z <- getitem num_pml_layers 2 ;;
  coords_z <-
    GridSpec1d.make_coords fuel (grid_z self) (coord2 center) (coord2 size) Axis2
      structures (snd symmetry) wavelength pml_z ;;
  Done {| boundaries := {| x := coords_x; y := coords_y; z := coords_z |} |}.

(** Classmethod [GridSpec.auto]: the same [AutoGrid] along each direction. *)
Definition auto {env : Collaborators} (wavelength : option Q)
  (min_steps_per_wvl max_scale : Q) (mesher : MesherType) : outcome t :=
  grid_1d <- AutoGrid.init min_steps_per_wvl max_scale mesher ;;
  Done {| grid_x := Auto grid_1d; grid_y := Auto grid_1d; grid_z := Auto grid_1d;
          wavelength := wavelength |}.

(** Classmethod [GridSpec.uniform]: the same [UniformGrid] along each
    direction; the field [wavelength] keeps its default [None]. *)
Definition uniform {env : Collaborators} (dl : Q) : outcome t :=
  grid_1d <- UniformGrid.init dl ;;
  Done {| grid_x := Uniform grid_1d; grid_y := Uniform grid_1d;
          grid_z := Uniform grid_1d; wavelength := None |}.

End GridSpec.

(** * The numeric code on binary64

    The definitions above read the arithmetic of the source on exact
    rationals.  The definitions of this module read the same lines on IEEE
    binary64 numbers (Rocq's primitive [float]), with the rounding, the
    comparisons and the ceiling of the numbers the program holds.  They are
    the ones to consult wherever rounding decides a comparison, a ceiling or
    an [argmin]. *)

Module Float64.

Local Open Scope float_scope.

Definition Coords1D : Type := list float.

(** A Python [int] as a binary64 number, rounded to nearest even. *)
Definition of_int (n : Z) : float := SF2Prim (binary_normalize prec emax n 0 false).

(** [int(np.ceil(x))]: [OverflowError] on an infinity, [ValueError] on NaN. *)
Definition ceil_int (x : float) : outcome Z :=
  match Prim2SF x with
  | S754_zero _ => Done 0%Z
  | S754_finite s m e =>
      if (0 <=? e)%Z then Done (cond_Zopp s (Z.pos m * 2 ^ e))
      else if s then Done (- (Z.pos m / 2 ^ (- e)))%Z
      else Done ((Z.pos m + 2 ^ (- e) - 1) / 2 ^ (- e))%Z
  | S754_infinity _ => Raise OverflowError
  | S754_nan => Raise ValueError
  end.

(** [np.arange(n)] as Python integers. *)
Definition arange (n : Z) : list Z := map Z.of_nat (seq 0 (Z.to_nat n)).

Definition first_item (l : Coords1D) : outcome float :=
  match l with
  | [] => Raise IndexError
  | x :: _ => Done x
  end.

Definition last_item (l : Coords1D) : outcome float :=
  match l with
  | [] => Raise IndexError
  | _ :: _ => Done (last l 0)
  end.

(** [np.cumsum]: the running sums, accumulated from left to right. *)
Fixpoint cumsum_from (acc : float) (l : list float) : list float :=
  match l with
  | [] => []
  | x :: t => (acc + x) :: cumsum_from (acc + x) t
  end.

Definition cumsum (l : list float) : list float :=
  match l with
  | [] => []
  | x :: t => x :: cumsum_from x t
  end.

(** [np.argmin] as numpy computes it: the running minimum [mp] is replaced
    by every later entry [v] for which [v >= mp] is false, and the scan
    stops at a NaN. *)
Fixpoint argmin_from (mp : float) (min_ind i : nat) (l : list float) : nat :=
  match l with
  | [] => min_ind
  | v :: t =>
      if mp <=? v then argmin_from mp min_ind (S i) t
      else if is_nan v then i
      else argmin_from v i (S i) t
  end.

Definition argmin (l : list float) : option nat :=
  match l with
  | [] => None
  | v :: t => Some (if is_nan v then 0%nat else argmin_from v 0 1 t)
  end.

Module UniformGrid.

Record t : Type := { dl : float }.

Definition num_cells (self : t) (size : float) : outcome Z :=
  num_cells <- ceil_int (size / dl self) ;;
  Done (Z.max num_cells 1).

Definition dl_snapped (self : t) (size : float) (num_cells : Z) : float :=
  if 0 <? size then size / of_int num_cells else dl self.

Definition _make_coords_initial (self : t) (center size : float) : outcome Coords1D :=
  num_cells <- num_cells self size ;;
  Done (map (fun k => center - size / 2 + of_int k * dl_snapped self size num_cells)
            (arange (num_cells + 1))).

End UniformGrid.

Module CustomGrid.

Record t : Type := { dl : list float }.

Fixpoint prepend_loop (fuel : nat) (dl_min bound_min : float) (bound_coords : Coords1D)
  : outcome Coords1D :=
  match fuel with
  | O => OutOfFuel
  | S fuel' =>
      match bound_coords with
      | [] => Raise IndexError
      | x :: _ =>
          if bound_min <=? x - dl_min
          then prepend_loop fuel' dl_min bound_min ((x - dl_min) :: bound_coords)
          else Done bound_coords
      end
  end.

Fixpoint append_loop (fuel : nat) (dl_max bound_max : float) (bound_coords : Coords1D)
  : outcome Coords1D :=
  match fuel with
  | O => OutOfFuel
  | S fuel' =>
      match bound_coords with
      | [] => Raise IndexError
      | _ :: _ =>
          let y := last bound_coords 0 in
          if y + dl_max <=? bound_max
          then append_loop fuel' dl_max bound_max (bound_coords ++ [y + dl_max])
          else Done bound_coords
      end
  end.

Definition centered (self : t) (center : float) : Coords1D :=
  let bound_coords := 0 :: cumsum (dl self) in
  map (fun x => x + (center - last bound_coords 0 / 2)) bound_coords.

Definition clipped (self : t) (center size : float) : Coords1D :=
  let bound_min := center - size / 2 in
  let bound_max := center + size / 2 in
  let bound_coords := filter (fun x => x <=? bound_max) (centered self center) in
  filter (fun x => bound_min <=? x) bound_coords.

Definition _make_coords_initial (fuel : nat) (self : t) (center size : float)
  : outcome Coords1D :=
  let bound_min := center - size / 2 in
  let bound_max := center + size / 2 in
  let bound_coords := clipped self center size in
  dl_min <- first_item (dl self) ;;
  dl_max <- last_item (dl self) ;;
  bound_coords <- prepend_loop fuel dl_min bound_min bound_coords ;;
  append_loop fuel dl_max bound_max bound_coords.

End CustomGrid.

Module GridSpec1d.

(** The block [if symmetry != 0: ...] of [make_coords]. *)
Definition symmetry_fold (center : float) (symmetry : Symmetry) (bound_coords : Coords1D)
  : outcome Coords1D :=
  if (symmetry =? 0)%Z then Done bound_coords
  else
    match argmin (map (fun x => abs (center - x)) bound_coords) with
    | None => Raise ValueError
    | Some center_ind =>
        let shift := center - nth center_ind bound_coords 0 in
        let bound_coords := map (fun x => x + shift) bound_coords in
        let bound_coords := filter (fun x => center <=? x) bound_coords in
        Done (map (fun x => 2 * center - x) (rev (tl bound_coords)) ++ bound_coords)
    end.

End GridSpec1d.

(** The mirror image of an array about [center], read in the same order. *)
Definition mirror (center : float) (l : Coords1D) : Coords1D :=
  rev (map (fun x => 2 * center - x) l).

(** Same numbers, position by position ([==] of Python on each pair). *)
Fixpoint same (l1 l2 : Coords1D) : bool :=
  match l1, l2 with
  | [], [] => true
  | a :: t1, b :: t2 => (a =? b) && same t1 t2
  | _, _ => false
  end.

(** Strictly increasing, as a test on the stored numbers. *)
Fixpoint strictly_increasing (l : Coords1D) : bool :=
  match l with
  | a :: ((b :: _) as t) => (a <? b) && strictly_increasing t
  | _ => true
  end.

(** The rational number a finite binary64 number stands for. *)
Definition to_Q (x : float) : Q :=
  match Prim2SF x with
  | S754_finite s m e =>
      if (0 <=? e)%Z then inject_Z (cond_Zopp s (Z.pos m * 2 ^ e))
      else Qmake (cond_Zopp s (Z.pos m)) (Z.to_pos (2 ^ (- e)))
  | _ => 0%Q
  end.

End Float64.

(** ** Vocabulary of the properties *)

(** Strictly increasing boundaries, the invariant of a [Coords1D]. *)
Definition increasing (l : Coords1D) : Prop := StronglySorted Qlt l.

(** Reflection [x -> 2 * center - x]. *)
Definition reflect (center x : Q) : Q := 2 * center - x.

(** The mirror image of an array about [center], read in increasing order. *)
Definition mirror (center : Q) (l : Coords1D) : Coords1D :=
  rev (map (reflect center) l).

(** The sum of a list of steps. *)
Definition steps_total (dl : list Q) : Q := fold_right Qplus 0 dl.

(** The per-axis build in the words of the specification: the strategy's
    initial boundaries, generated as periodic exactly when both PML layer
    counts are zero; then the symmetry fold, when the flag is nonzero; then
    the PML extension. *)
Definition axis_pipeline {env : Collaborators} (fuel : nat) (strategy : GridType)
  (center size : Q) (axis : Axis) (structures : list Structure)
  (symmetry : Symmetry) (wavelength : option Q) (pml_layers : nat * nat)
  : outcome Coords1D :=
  let periodic :=
    match pml_layers with
    | (O, O) => true
    | _ => false
    end in
  initial <-
    GridSpec1d._make_coords_initial fuel strategy center size axis structures
      wavelength periodic ;;
  folded <-
    (if (symmetry =? 0)%Z then Done initial
     else GridSpec1d.symmetry_fold center symmetry initial) ;;
  Done (GridSpec1d._add_pml_to_bounds pml_layers folded).

(** Reduce an equation between two explicit arrays to one goal per entry. *)
Ltac entrywise :=
  repeat match goal with
         | |- Forall2 _ _ _ => constructor
         | |- Forall _ _ => constructor
         end.


(** * Properties *)

(** ** Tests and list equality *)

Lemma Qlt_bool_iff (a b : Q) : Qlt_bool a b = true <-> a < b.
Proof.
  unfold Qlt_bool. rewrite negb_true_iff.
  destruct (Qle_bool b a) eqn:E.
  - apply Qle_bool_iff in E. split; [discriminate | intro; lra].
  - split; [intros _ | reflexivity].
    apply Qnot_le_lt. intro Hle. apply Qle_bool_iff in Hle. congruence.
Qed.

Lemma Qle_bool_false (a b : Q) : Qle_bool a b = false <-> b < a.
Proof.
  rewrite <- Qlt_bool_iff. unfold Qlt_bool.
  destruct (Qle_bool a b); simpl; split; congruence.
Qed.

Lemma Qlist_eq_refl (l : Coords1D) : l =l= l.
Proof. induction l; constructor; [reflexivity | assumption]. Qed.

Lemma Qlist_eq_app (a1 a2 b1 b2 : Coords1D) :
  a1 =l= a2 -> b1 =l= b2 -> a1 ++ b1 =l= a2 ++ b2.
Proof. induction 1; simpl; intros; [assumption | constructor; auto]. Qed.

Lemma Qlist_eq_rev (l1 l2 : Coords1D) : l1 =l= l2 -> rev l1 =l= rev l2.
Proof.
  induction 1; simpl; [constructor|].
  apply Qlist_eq_app; [assumption | constructor; [assumption | constructor]].
Qed.

Lemma Qlist_eq_map (f g : Q -> Q) (l1 l2 : Coords1D) :
  (forall a b, a == b -> f a == g b) -> l1 =l= l2 -> map f l1 =l= map g l2.
Proof. intros Hfg. induction 1; simpl; constructor; auto. Qed.

(** ** Ranges *)

Lemma item_map_range (f : Q -> Q) (a n i : nat) :
  (i < n)%nat ->
  item (map f (map (fun k => inject_Z (Z.of_nat k)) (seq a n))) i
  = f (inject_Z (Z.of_nat (a + i))).
Proof.
  unfold item. revert a i. induction n; intros a i Hi; [lia|].
  destruct i; simpl.
  - now rewrite Nat.add_0_r.
  - rewrite IHn by lia. do 3 f_equal. lia.
Qed.

(** ** Uniform grids on a domain of size 0 *)

Lemma num_cells_zero (self : UniformGrid.t) : UniformGrid.num_cells self 0 = 1%Z.
Proof.
  unfold UniformGrid.num_cells.
  assert (E : 0 / UniformGrid.dl self == 0) by (unfold Qdiv; ring).
  rewrite E. reflexivity.
Qed.

Lemma uniform_zero_coords (self : UniformGrid.t) (center : Q) :
  UniformGrid._make_coords_initial self center 0
  = [center - 0 / 2 + 0 * UniformGrid.dl self;
     center - 0 / 2 + 1 * UniformGrid.dl self].
Proof.
  unfold UniformGrid._make_coords_initial, UniformGrid.dl_snapped.
  rewrite num_cells_zero. reflexivity.
Qed.



(** ** PML extension *)

Lemma last_as_item (l : Coords1D) :
  l <> [] -> last l 0 = item l (length l - 1).
Proof.
  induction l as [|h t _] using rev_ind; [congruence|]. intros _.
  rewrite last_last, length_app. simpl. unfold item.
  rewrite app_nth2 by lia.
  replace (length t + 1 - 1 - length t)%nat with 0%nat by lia. reflexivity.
Qed.

Lemma arange_down_item (f : Q -> Q) (n i : nat) :
  (i < n)%nat ->
  item (map f (arange_down n)) i = f (inject_Z (Z.of_nat (n - i))).
Proof.
  intro Hi. unfold arange_down, arange_up, item.
  rewrite map_rev, rev_nth by (rewrite !length_map, length_seq; lia).
  rewrite !length_map, length_seq.
  fold (item (map f (map (fun k => inject_Z (Z.of_nat k)) (seq 1 n))) (n - S i)).
  rewrite item_map_range by lia. do 3 f_equal. lia.
Qed.

Section PmlFacts.

Import GridSpec1d.

Variable bounds : Coords1D.
Variables a b : nat.
Hypothesis two_points : (2 <= length bounds)%nat.

Lemma add_pml_unfold :
  _add_pml_to_bounds (a, b) bounds
  = add_left (a, b) bounds ++ bounds ++ add_right (a, b) bounds.
Proof.
  unfold _add_pml_to_bounds.
  destruct (Nat.ltb_spec (length bounds) 2) as [H|H]; [lia | reflexivity].
Qed.

Lemma add_left_length : length (add_left (a, b) bounds) = a.
Proof.
  unfold add_left, arange_down, arange_up.
  now rewrite length_map, length_rev, length_map, length_seq.
Qed.

Lemma add_right_length : length (add_right (a, b) bounds) = b.
Proof. unfold add_right, arange_up. now rewrite !length_map, length_seq. Qed.

Lemma add_pml_item_left (i : nat) :
  (i < a)%nat ->
  item (_add_pml_to_bounds (a, b) bounds) i
  = item bounds 0 - first_step bounds * inject_Z (Z.of_nat (a - i)).
Proof.
  intro Hi. rewrite add_pml_unfold. unfold item.
  rewrite app_nth1 by (rewrite add_left_length; lia).
  apply (arange_down_item (fun k => item bounds 0 - first_step bounds * k)). exact Hi.
Qed.

Lemma add_pml_item_mid (i : nat) :
  (i < length bounds)%nat ->
  item (_add_pml_to_bounds (a, b) bounds) (a + i) = item bounds i.
Proof.
  intro Hi. rewrite add_pml_unfold. unfold item.
  rewrite app_nth2 by (rewrite add_left_length; lia).
  rewrite add_left_length, app_nth1 by lia. f_equal. lia.
Qed.

Lemma add_pml_item_right (j : nat) :
  (j < b)%nat ->
  item (_add_pml_to_bounds (a, b) bounds) (a + length bounds + j)
  = last bounds 0 + last_step bounds * inject_Z (Z.of_nat (1 + j)).
Proof.
  intro Hj. rewrite add_pml_unfold. unfold item.
  rewrite app_nth2 by (rewrite add_left_length; lia).
  rewrite add_left_length, app_nth2 by lia.
  replace (a + length bounds + j - a - length bounds)%nat with j by lia.
  apply (item_map_range (fun k => last bounds 0 + last_step bounds * k) 1 b j Hj).
Qed.

Lemma add_pml_left_spacing (i : nat) :
  (i < a)%nat ->
  item (_add_pml_to_bounds (a, b) bounds) (S i)
  - item (_add_pml_to_bounds (a, b) bounds) i == first_step bounds.
Proof.
  intro Hi. rewrite (add_pml_item_left i Hi).
  destruct (Nat.eq_dec (S i) a) as [E|E].
  - replace (S i) with (a + 0)%nat by lia.
    rewrite add_pml_item_mid by lia.
    replace (a - i)%nat with 1%nat by lia. simpl. ring.
  - rewrite add_pml_item_left by lia.
    replace (a - i)%nat with (S (a - S i)) by lia.
    rewrite Nat2Z.inj_succ. unfold Z.succ. rewrite inject_Z_plus. ring.
Qed.

Lemma add_pml_right_spacing (j : nat) :
  (j < b)%nat ->
  item (_add_pml_to_bounds (a, b) bounds) (a + length bounds + j)
  - item (_add_pml_to_bounds (a, b) bounds) (a + length bounds + j - 1)
  == last_step bounds.
Proof.
  intro Hj. rewrite (add_pml_item_right j Hj).
  destruct j as [|j].
  - replace (a + length bounds + 0 - 1)%nat with (a + (length bounds - 1))%nat by lia.
    rewrite add_pml_item_mid by lia.
    rewrite <- last_as_item by (destruct bounds; simpl in *; [lia | congruence]).
    simpl. ring.
  - replace (a + length bounds + S j - 1)%nat with (a + length bounds + j)%nat by lia.
    rewrite add_pml_item_right by lia.
    replace (1 + S j)%nat with (S (1 + j)) by lia.
    rewrite Nat2Z.inj_succ. unfold Z.succ. rewrite inject_Z_plus. ring.
Qed.

End PmlFacts.



(** ** Strictly increasing arrays *)

Lemma increasing_cons_inv (x : Q) (l : Coords1D) :
  increasing (x :: l) -> increasing l /\ Forall (Qlt x) l.
Proof. apply StronglySorted_inv. Qed.

Lemma increasing_app (l1 l2 : Coords1D) :
  increasing l1 -> increasing l2 ->
  (forall a b, In a l1 -> In b l2 -> a < b) ->
  increasing (l1 ++ l2).
Proof.
  unfold increasing. induction l1 as [|h t IH]; simpl; intros H1 H2 Hlt; [assumption|].
  apply StronglySorted_inv in H1. destruct H1 as [Ht Hh].
  constructor.
  - apply IH; auto.
  - apply Forall_app. split; [assumption|].
    apply Forall_forall. intros b Hb. apply Hlt; auto.
Qed.

Lemma increasing_map (f : Q -> Q) (l : Coords1D) :
  (forall a b, a < b -> f a < f b) -> increasing l -> increasing (map f l).
Proof.
  intros Hf. unfold increasing. induction 1 as [|h t Ht IH Hh]; simpl; constructor.
  - assumption.
  - apply Forall_map. eapply Forall_impl; [|exact Hh]. intros a Ha. now apply Hf.
Qed.

(** The head of an increasing array is its least entry. *)
Lemma increasing_head_least (h : Q) (t : Coords1D) (e : Q) :
  increasing (h :: t) -> In e (h :: t) -> h <= e.
Proof.
  intros H [<-|He]; [lra|].
  apply increasing_cons_inv in H. destruct H as [_ Hh].
  rewrite Forall_forall in Hh. specialize (Hh e He). lra.
Qed.

Lemma last_In (l : Coords1D) : l <> [] -> In (last l 0) l.
Proof.
  induction l as [|a l IH]; [congruence|]. intros _.
  destruct l as [|b l]; [now left|].
  right. apply IH. discriminate.
Qed.

(** ** Per-axis build and wavelength *)

Lemma bind_done {A B : Type} (m : outcome A) (k : A -> outcome B) (b : B) :
  bind m k = Done b -> exists a, m = Done a /\ k a = Done b.
Proof. destruct m; simpl; intro H; [eauto | discriminate | discriminate]. Qed.

Lemma isclose_refl (f : Q) : isclose f f = true.
Proof.
  unfold isclose. apply Qle_bool_iff.
  setoid_replace (f - f) with 0 by ring.
  pose proof (Qabs_nonneg f) as Hf.
  change (Qabs 0) with 0. unfold atol, rtol.
  assert (0 <= (1 # 100000) * Qabs f) by (apply Qmult_le_0_compat; [discriminate | exact Hf]).
  assert (0 < 1 # 100000000) by reflexivity. lra.
Qed.

Section Build.

Context {env : Collaborators}.

Lemma is_periodic_iff (a b : nat) :
  GridSpec1d.is_periodic (a, b) = true <-> a = 0%nat /\ b = 0%nat.
Proof. unfold GridSpec1d.is_periodic. simpl. rewrite Nat.eqb_eq. lia. Qed.

Lemma make_coords_pipeline (fuel : nat) (self : GridType) (center size : Q)
  (axis : Axis) (structures : list Structure) (symmetry : Symmetry)
  (wavelength : option Q) (num_pml_layers : nat * nat) :
  GridSpec1d.make_coords fuel self center size axis structures symmetry
    wavelength num_pml_layers
  = axis_pipeline fuel self center size axis structures symmetry wavelength
      num_pml_layers.
Proof.
  unfold GridSpec1d.make_coords, axis_pipeline.
  assert (Ep : GridSpec1d.is_periodic num_pml_layers
               = match num_pml_layers with (O, O) => true | _ => false end).
  { destruct num_pml_layers as [[|a] [|b]]; reflexivity. }
  rewrite Ep.
  destruct (GridSpec1d._make_coords_initial _ _ _ _ _ _ _ _); try reflexivity.
  cbn [bind]. destruct (Z.eqb_spec symmetry 0) as [->|Hs]; reflexivity.
Qed.

End Build.

(** C5.  The per-axis build [make_coords] is the composition, in this
    order, of the strategy's initial boundaries, the symmetry fold (only
    when the flag is nonzero) and the PML extension, the initial boundaries
    being generated as periodic exactly when both PML layer counts are zero;
    and [make_grid] resolves the wavelength once and builds each of the
    three axes by that composition. *)
Theorem make_grid_axis_pipeline {env : Collaborators} (fuel : nat) :
  (forall self center size axis structures symmetry wavelength num_pml_layers,
     GridSpec1d.make_coords fuel self center size axis structures symmetry
       wavelength num_pml_layers
     = axis_pipeline fuel self center size axis structures symmetry wavelength
         num_pml_layers) /\
  (forall a b, GridSpec1d.is_periodic (a, b) = true <-> a = 0%nat /\ b = 0%nat) /\
  (forall self structures symmetry sources num_pml_layers grid,
     GridSpec.make_grid fuel self structures symmetry sources num_pml_layers
     = Done grid ->
     exists domain wavelength pml_x pml_y pml_z,
       nth_error structures 0 = Some domain /\
       GridSpec.get_wavelength self sources = Done wavelength /\
       nth_error num_pml_layers 0 = Some pml_x /\
       nth_error num_pml_layers 1 = Some pml_y /\
       nth_error num_pml_layers 2 = Some pml_z /\
       axis_pipeline fuel (GridSpec.grid_x self)
         (coord0 (geometry_center domain)) (coord0 (geometry_size domain)) Axis0
         structures (fst (fst symmetry)) wavelength pml_x
       = Done (x (boundaries grid)) /\
       axis_pipeline fuel (GridSpec.grid_y self)
         (coord1 (geometry_center domain)) (coord1 (geometry_size domain)) Axis1
         structures (snd (fst symmetry)) wavelength pml_y
       = Done (y (boundaries grid)) /\
       axis_pipeline fuel (GridSpec.grid_z self)
         (coord2 (geometry_center domain)) (coord2 (geometry_size domain)) Axis2
         structures (snd symmetry) wavelength pml_z
       = Done (z (boundaries grid))).
Proof.
  split; [|split].
  - intros. apply make_coords_pipeline.
  - apply is_periodic_iff.
  - intros self structures symmetry sources num_pml_layers grid Hgrid.
    unfold GridSpec.make_grid, GridSpec.getitem in Hgrid.
    destruct (nth_error structures 0) as [domain|] eqn:Ed; [|discriminate].
    cbn [bind] in Hgrid.
    apply bind_done in Hgrid. destruct Hgrid as (wavelength & Hw & Hgrid).
    destruct (nth_error num_pml_layers 0) as [pml_x|] eqn:Ex; [|discriminate].
    cbn [bind] in Hgrid.
    apply bind_done in Hgrid. destruct Hgrid as (cx & Hx & Hgrid).
    destruct (nth_error num_pml_layers 1) as [pml_y|] eqn:Ey; [|discriminate].
    cbn [bind] in Hgrid.
    apply bind_done in Hgrid. destruct Hgrid as (cy & Hy & Hgrid).
    destruct (nth_error num_pml_layers 2) as [pml_z|] eqn:Ez; [|discriminate].
    cbn [bind] in Hgrid.
    apply bind_done in Hgrid. destruct Hgrid as (cz & Hz & Hgrid).
    injection Hgrid as <-.
    rewrite make_coords_pipeline in Hx, Hy, Hz.
    exists domain, wavelength, pml_x, pml_y, pml_z. cbn [boundaries x y z].
    repeat split; assumption.
Qed.

Lemma make_grid_axis_pipeline_witness :
  let env := example_env in
  let uniform := Uniform {| UniformGrid.dl := 1 # 2 |} in
  let self :=
    {| GridSpec.grid_x := uniform; GridSpec.grid_y := uniform;
       GridSpec.grid_z := uniform; GridSpec.wavelength := None |} in
  let structures := [((0, 0, 0), (1, 1, 0))] in
  let num_pml_layers := [(0%nat, 0%nat); (1%nat, 2%nat); (2%nat, 3%nat)] in
  exists grid wavelength,
    GridSpec.make_grid 0 self structures (0%Z, 1%Z, 0%Z) [] num_pml_layers
    = Done grid /\
    axis_pipeline 0 uniform 0 1 Axis1 structures 1%Z wavelength (1%nat, 2%nat)
    = Done (y (boundaries grid)) /\
    y (boundaries grid) =l= [-1; -1 # 2; 0; 1 # 2; 1; 3 # 2].
Proof.
  intros env uniform self structures num_pml_layers.
  destruct (make_grid_axis_pipeline (env := env) 0) as (_ & _ & Hgrid).
  eassert (E : GridSpec.make_grid 0 self structures (0%Z, 1%Z, 0%Z) []
                 num_pml_layers = Done _) by (vm_compute; reflexivity).
  destruct (Hgrid _ _ _ _ _ _ E)
    as (domain & wavelength & pml_x & pml_y & pml_z
        & Hd & _ & _ & Hy & _ & _ & Hcy & _).
  injection Hd as <-. injection Hy as <-.
  eexists _, wavelength. split; [exact E|]. split; [exact Hcy|].
  cbn [boundaries y]. entrywise; reflexivity.
Defined.

(** C3.  Wavelength resolution: an explicit wavelength, or the absence of
    any Auto axis, returns the explicit value (possibly absent) whatever the
    sources are.  Otherwise an empty source list raises [SetupError]; center
    frequencies that are not all close to the first one raise [SetupError];
    and all-agreeing sources, a single source in particular, resolve to
    [C_0] divided by the first source's center frequency. *)
Theorem get_wavelength_policy {env : Collaborators} (self : GridSpec.t)
  (sources : list SourceType) :
  (GridSpec.wavelength self <> None \/ GridSpec.auto_grid_used self = false ->
   GridSpec.get_wavelength self sources = Done (GridSpec.wavelength self)) /\
  (GridSpec.wavelength self = None -> GridSpec.auto_grid_used self = true ->
   (sources = [] ->
    GridSpec.get_wavelength self sources
    = Raise (SetupError GridSpec.no_wavelength_msg)) /\
   (forall first rest, sources = first :: rest ->
      (exists other, In other sources /\
                     isclose (freq0 other) (freq0 first) = false) ->
      GridSpec.get_wavelength self sources
      = Raise (SetupError GridSpec.different_freqs_msg)) /\
   (forall first rest, sources = first :: rest ->
      (forall other, In other sources ->
                     isclose (freq0 other) (freq0 first) = true) ->
      GridSpec.get_wavelength self sources = Done (Some (C_0 / freq0 first))) /\
   (forall only, sources = [only] ->
      GridSpec.get_wavelength self sources = Done (Some (C_0 / freq0 only)))).
Proof.
  unfold GridSpec.get_wavelength. split.
  - intros [Hw|Ha].
    + destruct (GridSpec.wavelength self); [reflexivity | congruence].
    + rewrite Ha. destruct (GridSpec.wavelength self); reflexivity.
  - intros -> ->.
    assert (Hagree : forall first rest, sources = first :: rest ->
              (forall other, In other sources ->
                 isclose (freq0 other) (freq0 first) = true) ->
              forallb (fun f => isclose f (freq0 first)) (map freq0 sources) = true).
    { intros first rest _ Hall. apply forallb_forall. intros f Hf.
      apply in_map_iff in Hf. destruct Hf as (other & <- & Hin). now apply Hall. }
    split; [|split; [|split]].
    + intros ->. reflexivity.
    + intros first rest E (other & Hin & Hfar).
      assert (Hf : forallb (fun f => isclose f (freq0 first)) (map freq0 sources) = false).
      { destruct (forallb _ (map freq0 sources)) eqn:Hall; [|reflexivity].
        rewrite forallb_forall in Hall.
        rewrite (Hall (freq0 other)) in Hfar; [discriminate | now apply in_map]. }
      rewrite E in *. cbn [map] in *. now rewrite Hf.
    + intros first rest E Hall. specialize (Hagree first rest E Hall).
      rewrite E in *. cbn [map] in *. now rewrite Hagree.
    + intros only E.
      assert (Hall : forall other, In other sources ->
                isclose (freq0 other) (freq0 only) = true).
      { rewrite E. intros other [<-|[]]. apply isclose_refl. }
      specialize (Hagree only [] E Hall).
      rewrite E in *. cbn [map] in *. now rewrite Hagree.
Qed.

Lemma get_wavelength_policy_witness :
  let env := example_env in
  let uniform := Uniform {| UniformGrid.dl := 1 # 2 |} in
  let auto :=
    Auto {| AutoGrid.min_steps_per_wvl := 10; AutoGrid.max_scale := 14 # 10;
            AutoGrid.mesher :=
              {| parse_structures := fun _ _ _ _ => ([], []);
                 make_grid_multiple_intervals := fun _ _ _ _ => [] |} |} in
  let explicit :=
    {| GridSpec.grid_x := auto; GridSpec.grid_y := uniform;
       GridSpec.grid_z := uniform; GridSpec.wavelength := Some (3 # 2) |} in
  let implicit :=
    {| GridSpec.grid_x := auto; GridSpec.grid_y := uniform;
       GridSpec.grid_z := uniform; GridSpec.wavelength := None |} in
  GridSpec.get_wavelength explicit [200000000000000; 1] = Done (Some (3 # 2)) /\
  GridSpec.get_wavelength implicit []
  = Raise (SetupError GridSpec.no_wavelength_msg) /\
  GridSpec.get_wavelength implicit [200000000000000; 300000000000000]
  = Raise (SetupError GridSpec.different_freqs_msg) /\
  GridSpec.get_wavelength implicit [200000000000000]
  = Done (Some (C_0 / 200000000000000)).
Proof.
  intros env uniform auto explicit implicit.
  destruct (get_wavelength_policy (env := env) explicit [200000000000000; 1])
    as [Hexplicit _].
  destruct (get_wavelength_policy (env := env) implicit []) as [_ Hnone].
  destruct (get_wavelength_policy (env := env) implicit
              [200000000000000; 300000000000000]) as [_ Hfar].
  destruct (get_wavelength_policy (env := env) implicit [200000000000000])
    as [_ Hone].
  split; [|split; [|split]].
  - apply Hexplicit. left. discriminate.
  - apply Hnone; reflexivity.
  - destruct Hfar as (_ & Hfar & _); [reflexivity | reflexivity |].
    apply (Hfar 200000000000000 [300000000000000] eq_refl).
    exists 300000000000000. split; [right; now left | reflexivity].
  - apply Hone; reflexivity.
Defined.

(** C8.  The claim asks that an empty step list be refused when the custom
    strategy is constructed.  The field check accepts the empty list, and
    the failure comes at build time: every build on that strategy raises
    [IndexError] when it reads [dl[0]]. *)
Theorem custom_empty_steps_fail_at_build {env : Collaborators} :
  exists g,
    CustomGrid.init [] = Done g /\
    CustomGrid.dl g = [] /\
    forall fuel center size axis structures symmetry wavelength num_pml_layers,
      GridSpec1d.make_coords fuel (Custom g) center size axis structures
        symmetry wavelength num_pml_layers
      = Raise IndexError.
Proof.
  exists {| CustomGrid.dl := [] |}. repeat split.
Qed.

(** ** Strictly increasing ranges and running sums *)

Lemma range_increasing (a n : nat) :
  increasing (map (fun k => inject_Z (Z.of_nat k)) (seq a n)).
Proof.
  unfold increasing. revert a. induction n as [|n IH]; intro a; simpl; constructor.
  - apply IH.
  - apply Forall_map, Forall_forall. intros k Hk. apply in_seq in Hk.
    rewrite <- Zlt_Qlt. lia.
Qed.

Lemma cumsum_from_increasing (acc : Q) (l : list Q) :
  Forall (fun d => 0 < d) l ->
  increasing (cumsum_from acc l) /\ Forall (Qlt acc) (cumsum_from acc l).
Proof.
  unfold increasing. intro H. revert acc.
  induction H as [|d l Hd Hl IH]; intro acc; simpl.
  - split; constructor.
  - destruct (IH (acc + d)) as [Hinc Hall]. split.
    + constructor; assumption.
    + constructor; [lra|].
      eapply Forall_impl; [|exact Hall]. cbv beta. intros v Hv. lra.
Qed.

Lemma increasing_last_greatest (l : Coords1D) (e : Q) :
  increasing l -> In e l -> e <= last l 0.
Proof.
  revert e. induction l as [|a l IH]; intro e; [intros _ []|]. intros Hinc Hin.
  apply increasing_cons_inv in Hinc. destruct Hinc as [Hl Ha].
  destruct l as [|b l].
  - destruct Hin as [<-|[]]. simpl. lra.
  - change (last (a :: b :: l) 0) with (last (b :: l) 0).
    destruct Hin as [<-|Hin]; [|now apply IH].
    rewrite Forall_forall in Ha.
    assert (a < b) by (apply Ha; now left).
    assert (b <= last (b :: l) 0) by (apply IH; [assumption | now left]). lra.
Qed.

(** * Further properties of the grid code *)

(** ** PML extension: order and extent *)

Lemma hd_as_item (l : Coords1D) : hd 0 l = item l 0.
Proof. destruct l; reflexivity. Qed.

Lemma increasing_item_lt (l : Coords1D) (i j : nat) :
  increasing l -> (i < j)%nat -> (j < length l)%nat -> item l i < item l j.
Proof.
  unfold item. revert i j. induction l as [|a l IH]; intros i j Hinc Hij Hj; [simpl in Hj; lia|].
  apply increasing_cons_inv in Hinc. destruct Hinc as [Hl Ha].
  destruct j as [|j]; [lia|]. simpl in Hj.
  destruct i as [|i].
  - simpl. rewrite Forall_forall in Ha. apply Ha. apply nth_In. lia.
  - simpl. apply IH; [assumption | lia | lia].
Qed.

(** Reversing the image of an increasing array under a decreasing map. *)
Lemma increasing_rev_antitone (f : Q -> Q) (l : Coords1D) :
  (forall a b, a < b -> f b < f a) -> increasing l -> increasing (rev (map f l)).
Proof.
  intros Hf. induction l as [|h t IH]; simpl; intro H; [constructor|].
  apply increasing_cons_inv in H. destruct H as [Ht Hh].
  apply increasing_app.
  - now apply IH.
  - repeat constructor.
  - intros a b Ha [<-|[]]. apply in_rev, in_map_iff in Ha.
    destruct Ha as (v & <- & Hv). rewrite Forall_forall in Hh. apply Hf. now apply Hh.
Qed.

Lemma arange_up_positive (n : nat) (k : Q) : In k (arange_up n) -> 1 <= k.
Proof.
  unfold arange_up. intro H. apply in_map_iff in H. destruct H as (j & <- & Hj).
  apply in_seq in Hj. change 1 with (inject_Z 1). rewrite <- Zle_Qle. lia.
Qed.

Section PmlOrder.

Import GridSpec1d.

Variable bounds : Coords1D.
Variables a b : nat.
Hypothesis two_points : (2 <= length bounds)%nat.
Hypothesis sorted : increasing bounds.

Lemma first_step_pos : 0 < first_step bounds.
Proof.
  unfold first_step.
  assert (item bounds 0 < item bounds 1) by (apply increasing_item_lt; [assumption | lia | lia]).
  lra.
Qed.

Lemma last_step_pos : 0 < last_step bounds.
Proof.
  unfold last_step. rewrite last_as_item by (destruct bounds; [simpl in *; lia | discriminate]).
  assert (item bounds (length bounds - 2) < item bounds (length bounds - 1))
    by (apply increasing_item_lt; [assumption | lia | lia]).
  lra.
Qed.

Lemma add_left_increasing :
  increasing (add_left (a, b) bounds) /\
  Forall (fun v => v < item bounds 0) (add_left (a, b) bounds).
Proof.
  pose proof first_step_pos as Hs.
  unfold add_left, arange_down. cbn [fst]. rewrite map_rev. split.
  - apply increasing_rev_antitone; [|apply range_increasing].
    intros u v Huv.
    assert (first_step bounds * u < first_step bounds * v)
      by (rewrite !(Qmult_comm (first_step bounds)); apply Qmult_lt_compat_r; assumption).
    lra.
  - apply Forall_rev, Forall_map, Forall_forall. intros k Hk.
    apply arange_up_positive in Hk.
    assert (first_step bounds * 1 <= first_step bounds * k)
      by (rewrite !(Qmult_comm (first_step bounds)); apply Qmult_le_compat_r; lra).
    lra.
Qed.

Lemma add_right_increasing :
  increasing (add_right (a, b) bounds) /\
  Forall (fun v => last bounds 0 < v) (add_right (a, b) bounds).
Proof.
  pose proof last_step_pos as Hs.
  unfold add_right. cbn [snd]. split.
  - apply increasing_map; [|apply range_increasing].
    intros u v Huv.
    assert (last_step bounds * u < last_step bounds * v)
      by (rewrite !(Qmult_comm (last_step bounds)); apply Qmult_lt_compat_r; assumption).
    lra.
  - apply Forall_map, Forall_forall. intros k Hk.
    apply arange_up_positive in Hk.
    assert (last_step bounds * 1 <= last_step bounds * k)
      by (rewrite !(Qmult_comm (last_step bounds)); apply Qmult_le_compat_r; lra).
    lra.
Qed.

Lemma add_pml_sorted : increasing (_add_pml_to_bounds (a, b) bounds).
Proof.
  rewrite (add_pml_unfold bounds a b two_points).
  destruct add_left_increasing as [Hl1 Hl2]. destruct add_right_increasing as [Hr1 Hr2].
  rewrite Forall_forall in Hl2, Hr2.
  assert (Hne : bounds <> []) by (destruct bounds; [simpl in *; lia | discriminate]).
  assert (Hfirst : forall e, In e bounds -> item bounds 0 <= e).
  { destruct bounds as [|x t]; [intros e []|]. intros e He.
    now apply (increasing_head_least x t). }
  apply increasing_app; [assumption | |].
  - apply increasing_app; [assumption | assumption |].
    intros u v Hu Hv. specialize (Hr2 v Hv). cbv beta in Hr2.
    pose proof (increasing_last_greatest _ u sorted Hu). lra.
  - intros u v Hu Hv. specialize (Hl2 u Hu). cbv beta in Hl2.
    apply in_app_or in Hv. destruct Hv as [Hv|Hv].
    + specialize (Hfirst v Hv). lra.
    + specialize (Hr2 v Hv). cbv beta in Hr2.
      pose proof (Hfirst _ (last_In _ Hne)). lra.
Qed.

End PmlOrder.





(** ** Custom grids: the centred boundaries *)

Lemma last_map_nonempty (f : Q -> Q) (l : Coords1D) :
  l <> [] -> last (map f l) 0 = f (last l 0).
Proof.
  induction l as [|a l IH]; [congruence|]. intros _.
  destruct l as [|b l]; [reflexivity|].
  change (last (map f (a :: b :: l)) 0) with (last (map f (b :: l)) 0).
  change (last (a :: b :: l) 0) with (last (b :: l) 0).
  apply IH. discriminate.
Qed.

Lemma cumsum_from_last (acc : Q) (l : list Q) :
  last (acc :: cumsum_from acc l) 0 == acc + steps_total l.
Proof.
  revert acc. induction l as [|d l IH]; intro acc.
  - simpl. ring.
  - change (last (acc :: cumsum_from acc (d :: l)) 0)
      with (last ((acc + d) :: cumsum_from (acc + d) l) 0).
    rewrite IH. simpl. ring.
Qed.

Lemma cumsum_last (l : list Q) : last (0 :: cumsum l) 0 == steps_total l.
Proof.
  destruct l as [|d l]; [reflexivity|].
  change (last (0 :: cumsum (d :: l)) 0) with (last (d :: cumsum_from d l) 0).
  rewrite cumsum_from_last. reflexivity.
Qed.

Lemma cumsum_length (l : list Q) : length (cumsum l) = length l.
Proof.
  destruct l as [|d l]; [reflexivity|]. simpl. f_equal.
  generalize d. induction l as [|e l IH]; intro acc; simpl; [reflexivity|].
  now rewrite IH.
Qed.

Lemma cumsum_increasing (l : list Q) :
  Forall (fun d => 0 < d) l -> increasing (0 :: cumsum l).
Proof.
  intro Hpos. unfold cumsum. destruct l as [|d l]; [repeat constructor|].
  inversion Hpos as [|? ? Hd Hl]; subst.
  destruct (cumsum_from_increasing d l Hl) as [Hinc Hall].
  constructor; [constructor; assumption|].
  constructor; [assumption|].
  eapply Forall_impl; [|exact Hall]. cbv beta. intros v Hv. lra.
Qed.

Section CustomCentered.

Import CustomGrid.

Variable self : CustomGrid.t.
Variable center : Q.
Hypothesis steps_positive : Forall (fun d => 0 < d) (dl self).

Lemma centered_increasing : increasing (centered self center).
Proof.
  unfold centered. apply increasing_map; [intros; lra|].
  now apply cumsum_increasing.
Qed.

Lemma centered_first :
  hd 0 (centered self center) == center - steps_total (dl self) / 2.
Proof. unfold centered. cbn [map hd]. rewrite cumsum_last. ring. Qed.

Lemma centered_last :
  last (centered self center) 0 == center + steps_total (dl self) / 2.
Proof.
  unfold centered. rewrite last_map_nonempty by discriminate.
  rewrite cumsum_last. field.
Qed.

Lemma centered_length : length (centered self center) = S (length (dl self)).
Proof. unfold centered. rewrite length_map. simpl. now rewrite cumsum_length. Qed.

End CustomCentered.



(** ** Wavelength and grid assembly *)

(** X12.  When some axis uses the Auto strategy, a successful wavelength
    resolution never returns an absent wavelength: the result is the
    explicit value or [C_0] over the first source's center frequency. *)
Theorem get_wavelength_present_for_auto {env : Collaborators} (self : GridSpec.t)
  (sources : list SourceType) (resolved : option Q) :
  GridSpec.auto_grid_used self = true ->
  GridSpec.get_wavelength self sources = Done resolved ->
  exists w,
    resolved = Some w /\
    (GridSpec.wavelength self = Some w \/
     GridSpec.wavelength self = None /\
     exists first rest, sources = first :: rest /\ w = C_0 / freq0 first).
Proof.
  unfold GridSpec.get_wavelength. intros Hauto Hres. rewrite Hauto in Hres.
  destruct (GridSpec.wavelength self) as [w|].
  - injection Hres as <-. exists w. split; [reflexivity | now left].
  - destruct sources as [|first rest]; [discriminate|]. cbn [map] in Hres.
    destruct (negb _); [discriminate|]. injection Hres as <-.
    eexists. split; [reflexivity|]. right. split; [reflexivity|].
    now exists first, rest.
Qed.

Lemma get_wavelength_present_for_auto_witness :
  let env := example_env in
  let auto_1d :=
    Auto {| AutoGrid.min_steps_per_wvl := 10; AutoGrid.max_scale := 14 # 10;
            AutoGrid.mesher :=
              {| parse_structures := fun _ _ _ _ => ([], []);
                 make_grid_multiple_intervals := fun _ _ _ _ => [] |} |} in
  let self :=
    {| GridSpec.grid_x := auto_1d; GridSpec.grid_y := auto_1d;
       GridSpec.grid_z := auto_1d; GridSpec.wavelength := None |} in
  exists w, GridSpec.get_wavelength self [200000000000000] = Done (Some w).
Proof.
  intros env auto_1d self.
  eassert (E : GridSpec.get_wavelength self [200000000000000] = Done _)
    by (vm_compute; reflexivity).
  destruct (get_wavelength_present_for_auto (env := env) self [200000000000000] _
              eq_refl E) as (w & Hw & _).
  exists w. rewrite E. now f_equal.
Defined.

Lemma make_grid_needs_three_pairs {env : Collaborators} (fuel : nat)
  (self : GridSpec.t) (structures : list Structure)
  (symmetry : Symmetry * Symmetry * Symmetry) (sources : list SourceType)
  (num_pml_layers : list (nat * nat)) (grid : Grid) :
  GridSpec.make_grid fuel self structures symmetry sources num_pml_layers = Done grid ->
  nth_error num_pml_layers 2 <> None.
Proof.
  unfold GridSpec.make_grid, GridSpec.getitem. intro Hgrid.
  repeat (apply bind_done in Hgrid; destruct Hgrid as (? & ? & Hgrid)).
  destruct (nth_error num_pml_layers 2); [discriminate|].
  destruct (nth_error structures 0); [|discriminate].
  cbn [bind] in Hgrid.
  repeat (apply bind_done in Hgrid; destruct Hgrid as (? & ? & Hgrid)).
  discriminate.
Qed.

(** X13.  [make_grid] fails before any axis is built: on an empty list of
    structures it raises [IndexError], whatever the other inputs; with a
    first structure, any error of the wavelength resolution is the error of
    [make_grid]; and with fewer than three PML pairs it never returns a
    grid. *)
Theorem make_grid_early_failure {env : Collaborators} (fuel : nat)
  (self : GridSpec.t) (structures : list Structure)
  (symmetry : Symmetry * Symmetry * Symmetry) (sources : list SourceType)
  (num_pml_layers : list (nat * nat)) :
  (structures = [] ->
   GridSpec.make_grid fuel self structures symmetry sources num_pml_layers
   = Raise IndexError) /\
  (forall e, structures <> [] ->
     GridSpec.get_wavelength self sources = Raise e ->
     GridSpec.make_grid fuel self structures symmetry sources num_pml_layers
     = Raise e) /\
  ((length num_pml_layers < 3)%nat ->
   forall grid,
     GridSpec.make_grid fuel self structures symmetry sources num_pml_layers
     <> Done grid).
Proof.
  split; [|split].
  - intros ->. reflexivity.
  - intros e Hs He. destruct structures as [|domain rest]; [congruence|].
    unfold GridSpec.make_grid, GridSpec.getitem. cbn [nth_error bind].
    now rewrite He.
  - intros Hlen grid Hgrid.
    pose proof (make_grid_needs_three_pairs fuel self structures symmetry sources
                  num_pml_layers grid Hgrid) as Hz.
    apply nth_error_Some in Hz. lia.
Qed.

Lemma make_grid_early_failure_witness :
  let env := example_env in
  let auto_1d :=
    Auto {| AutoGrid.min_steps_per_wvl := 10; AutoGrid.max_scale := 14 # 10;
            AutoGrid.mesher :=
              {| parse_structures := fun _ _ _ _ => ([], []);
                 make_grid_multiple_intervals := fun _ _ _ _ => [] |} |} in
  let self :=
    {| GridSpec.grid_x := auto_1d; GridSpec.grid_y := auto_1d;
       GridSpec.grid_z := auto_1d; GridSpec.wavelength := None |} in
  GridSpec.make_grid 0 self [] (0%Z, 0%Z, 0%Z) [] [] = Raise IndexError /\
  GridSpec.make_grid 0 self [((0, 0, 0), (1, 1, 1))] (0%Z, 0%Z, 0%Z) [] []
  = Raise (SetupError GridSpec.no_wavelength_msg).
Proof.
  intros env auto_1d self.
  destruct (make_grid_early_failure (env := env) 0 self [] (0%Z, 0%Z, 0%Z) [] [])
    as (Hempty & _ & _).
  destruct (make_grid_early_failure (env := env) 0 self [((0, 0, 0), (1, 1, 1))]
              (0%Z, 0%Z, 0%Z) [] []) as (_ & Hwave & _).
  split.
  - apply Hempty. reflexivity.
  - apply Hwave; [discriminate | reflexivity].
Defined.

(** X14.  [GridSpec.auto] is refused when [min_steps_per_wvl < 6] or
    [max_scale] is outside [[1.2, 2)].  Otherwise it gives a specification
    that uses the Auto strategy, so that its wavelength resolution returns
    an explicit wavelength whatever the sources are, and without an explicit
    wavelength raises [SetupError] on an empty source list. *)
Theorem auto_spec_wavelength {env : Collaborators} (wavelength : option Q)
  (min_steps_per_wvl max_scale : Q) (mesher : MesherType) :
  (min_steps_per_wvl < 6 \/ max_scale < 12 # 10 \/ 2 <= max_scale ->
   GridSpec.auto wavelength min_steps_per_wvl max_scale mesher
   = Raise ValidationError) /\
  (6 <= min_steps_per_wvl -> 12 # 10 <= max_scale -> max_scale < 2 ->
   exists spec,
     GridSpec.auto wavelength min_steps_per_wvl max_scale mesher = Done spec /\
     GridSpec.auto_grid_used spec = true /\
     (forall w sources, wavelength = Some w ->
        GridSpec.get_wavelength spec sources = Done (Some w)) /\
     (wavelength = None ->
      GridSpec.get_wavelength spec []
      = Raise (SetupError GridSpec.no_wavelength_msg))).
Proof.
  unfold GridSpec.auto, AutoGrid.init. split.
  - intro Hbad.
    destruct (Qle_bool 6 min_steps_per_wvl) eqn:E1; [|reflexivity].
    destruct (Qle_bool (12 # 10) max_scale) eqn:E2; [|reflexivity].
    destruct (Qlt_bool max_scale 2) eqn:E3; [|reflexivity].
    apply Qle_bool_iff in E1, E2. apply Qlt_bool_iff in E3.
    destruct Hbad as [H|[H|H]]; lra.
  - intros H1 H2 H3.
    apply Qle_bool_iff in H1, H2. apply Qlt_bool_iff in H3.
    rewrite H1, H2, H3. cbn [andb bind].
    eexists. split; [reflexivity|]. split; [reflexivity|]. split.
    + intros w sources ->. reflexivity.
    + intros ->. reflexivity.
Qed.

Lemma auto_spec_wavelength_witness :
  let env := example_env in
  let mesher :=
    {| parse_structures := fun _ _ _ _ => ([], []);
       make_grid_multiple_intervals := fun _ _ _ _ => [] |} in
  GridSpec.auto None 5 (14 # 10) mesher = Raise ValidationError /\
  exists spec,
    GridSpec.auto (Some (3 # 2)) 10 (14 # 10) mesher = Done spec /\
    GridSpec.get_wavelength spec [1; 2] = Done (Some (3 # 2)).
Proof.
  intros env mesher.
  destruct (auto_spec_wavelength (env := env) None 5 (14 # 10) mesher) as [Hbad _].
  destruct (auto_spec_wavelength (env := env) (Some (3 # 2)) 10 (14 # 10) mesher)
    as [_ Hgood].
  split; [apply Hbad; left; reflexivity|].
  destruct Hgood as (spec & Hspec & _ & Hw & _); try discriminate; try reflexivity.
  exists spec. split; [exact Hspec | now apply Hw].
Defined.

(** ** Auto grids *)



(** ** The edge loops need positive steps *)

Lemma prepend_loop_stuck (fuel : nat) (d bound_min x : Q) (t : Coords1D) :
  d <= 0 -> bound_min <= x ->
  CustomGrid.prepend_loop fuel d bound_min (x :: t) = OutOfFuel.
Proof.
  intro Hd. revert x t. induction fuel as [|n IH]; intros x t Hx; [reflexivity|].
  cbn [CustomGrid.prepend_loop]. destruct (Qle_bool bound_min (x - d)) eqn:E.
  - apply IH. lra.
  - apply Qle_bool_false in E. lra.
Qed.

Lemma append_loop_stuck (fuel : nat) (d bound_max : Q) (l : Coords1D) :
  d <= 0 -> l <> [] -> last l 0 <= bound_max ->
  CustomGrid.append_loop fuel d bound_max l = OutOfFuel.
Proof.
  intro Hd. revert l. induction fuel as [|n IH]; intros l Hne Hx; [reflexivity|].
  destruct l as [|x t]; [congruence|].
  cbn [CustomGrid.append_loop]. cbv zeta.
  destruct (Qle_bool (last (x :: t) 0 + d) bound_max) eqn:E.
  - apply IH; [destruct t; discriminate|]. rewrite last_last. lra.
  - apply Qle_bool_false in E. lra.
Qed.

(** X16.  The edge loops have no iteration cap of their own: with a step
    that is zero or negative, the prepend loop started on a first boundary
    at or above [bound_min], and the append loop started on a last boundary
    at or below [bound_max], never stop (every fuel is exhausted). *)
Theorem edge_loops_need_positive_step (d bound_min bound_max : Q)
  (bound_coords : Coords1D) :
  d <= 0 -> bound_coords <> [] ->
  (bound_min <= hd 0 bound_coords ->
   forall fuel, CustomGrid.prepend_loop fuel d bound_min bound_coords = OutOfFuel) /\
  (last bound_coords 0 <= bound_max ->
   forall fuel, CustomGrid.append_loop fuel d bound_max bound_coords = OutOfFuel).
Proof.
  intros Hd Hne. split.
  - intros Hx fuel. destruct bound_coords as [|x t]; [congruence|].
    now apply prepend_loop_stuck.
  - intros Hx fuel. now apply append_loop_stuck.
Qed.

Lemma edge_loops_need_positive_step_witness :
  CustomGrid.prepend_loop 1000 0 (-1) [0; 1] = OutOfFuel /\
  CustomGrid.append_loop 1000 (-1 # 2) 1 [0; 1] = OutOfFuel.
Proof.
  destruct (edge_loops_need_positive_step 0 (-1) 1 [0; 1]) as [Hlow _];
    try discriminate.
  destruct (edge_loops_need_positive_step (-1 # 2) (-1) 1 [0; 1]) as [_ Hhigh];
    try discriminate.
  split; [apply Hlow | apply Hhigh]; discriminate.
Defined.

(** ** Symmetry survives a PML extension with equal counts *)

Lemma Qlist_eq_item (l1 l2 : Coords1D) (i : nat) :
  l1 =l= l2 -> item l1 i == item l2 i.
Proof.
  unfold item. intro H. revert i. induction H as [|a b l1 l2 Hab Hl IH]; intro i.
  - destruct i; reflexivity.
  - destruct i; simpl; [exact Hab | apply IH].
Qed.

Lemma mirror_item (center : Q) (l : Coords1D) (i : nat) :
  (i < length l)%nat ->
  item (mirror center l) i = reflect center (item l (length l - S i)).
Proof.
  intro Hi. unfold mirror, item.
  rewrite rev_nth by (rewrite length_map; exact Hi). rewrite length_map.
  rewrite (nth_indep _ 0 (reflect center 0)) by (rewrite length_map; lia).
  apply map_nth.
Qed.

Lemma mirror_app (center : Q) (l1 l2 : Coords1D) :
  mirror center (l1 ++ l2) = mirror center l2 ++ mirror center l1.
Proof. unfold mirror. now rewrite map_app, rev_app_distr. Qed.

Section SymmetricPml.

Import GridSpec1d.

Variable center : Q.
Variable bounds : Coords1D.
Variable n : nat.
Hypothesis two_points : (2 <= length bounds)%nat.
Hypothesis symmetric : mirror center bounds =l= bounds.

Lemma symmetric_ends : hd 0 bounds == reflect center (last bounds 0).
Proof.
  rewrite hd_as_item, last_as_item by (destruct bounds; [simpl in *; lia | discriminate]).
  rewrite <- (Qlist_eq_item _ _ 0 symmetric), mirror_item by lia. reflexivity.
Qed.

Lemma symmetric_steps : first_step bounds == last_step bounds.
Proof.
  unfold first_step, last_step.
  rewrite last_as_item by (destruct bounds; [simpl in *; lia | discriminate]).
  rewrite <- (Qlist_eq_item _ _ 0 symmetric), <- (Qlist_eq_item _ _ 1 symmetric).
  rewrite !mirror_item by lia. unfold reflect. ring.
Qed.

Lemma add_pml_symmetric :
  mirror center (_add_pml_to_bounds (n, n) bounds)
  =l= _add_pml_to_bounds (n, n) bounds.
Proof.
  pose proof symmetric_ends as He. pose proof symmetric_steps as Hs.
  unfold reflect in He.
  rewrite (add_pml_unfold bounds n n two_points), !mirror_app, <- app_assoc.
  apply Qlist_eq_app; [|apply Qlist_eq_app; [exact symmetric|]].
  - unfold mirror, add_left, add_right, arange_down. cbn [fst snd].
    rewrite (map_rev _ (arange_up n)). apply Qlist_eq_rev. rewrite map_map.
    apply Qlist_eq_map; [|apply Qlist_eq_refl].
    intros u v Huv. unfold reflect. rewrite hd_as_item in He. rewrite Huv, Hs. lra.
  - unfold mirror, add_left, add_right, arange_down. cbn [fst snd].
    rewrite (map_rev _ (arange_up n)), <- map_rev, rev_involutive, map_map.
    apply Qlist_eq_map; [|apply Qlist_eq_refl].
    intros u v Huv. unfold reflect. rewrite hd_as_item in He. rewrite Huv, Hs. lra.
Qed.

End SymmetricPml.



(** * The numeric code on binary64: what rounding changes *)

(** ** Uniform grids *)

Lemma arange_length (n : Z) : length (Float64.arange n) = Z.to_nat n.
Proof. unfold Float64.arange. now rewrite length_map, length_seq. Qed.

Lemma arange_nth (n : Z) (k : nat) (d : Z) :
  (k < Z.to_nat n)%nat -> nth k (Float64.arange n) d = Z.of_nat k.
Proof.
  intro Hk. unfold Float64.arange.
  rewrite (nth_indep _ d (Z.of_nat 0)) by (rewrite length_map, length_seq; exact Hk).
  rewrite map_nth, seq_nth by exact Hk. reflexivity.
Qed.

Lemma map_nth_in {A B : Type} (f : A -> B) (l : list A) (k : nat) (d : B) (d' : A) :
  (k < length l)%nat -> nth k (map f l) d = f (nth k l d').
Proof.
  revert k. induction l as [|a l IH]; intros k Hk; [simpl in Hk; lia|].
  destruct k; simpl; [reflexivity|]. apply IH. simpl in Hk. lia.
Qed.

(** C2 (amended).  On binary64 numbers, for a uniform strategy of step
    [dl], every center and every size [s]: when [int(np.ceil(s / dl))]
    raises, so does the computation; otherwise, with [n] the maximum of 1 and
    the ceiling of the rounded quotient [s / dl], the result has exactly [n]
    intervals, hence at least 2 boundaries, and its boundary number [k] is
    [center - s/2 + k * step] evaluated in binary64, with one step for all
    [k]: [s / n] when [s > 0] and [dl] otherwise. *)
Theorem uniform_initial_coords_binary64 (self : Float64.UniformGrid.t)
  (center size : float) :
  (forall e,
     Float64.ceil_int (size / Float64.UniformGrid.dl self) = Raise e ->
     Float64.UniformGrid._make_coords_initial self center size = Raise e) /\
  (forall ceiling,
     Float64.ceil_int (size / Float64.UniformGrid.dl self) = Done ceiling ->
     let n := Z.max ceiling 1 in
     let step :=
       if (0 <? size)%float then (size / Float64.of_int n)%float
       else Float64.UniformGrid.dl self in
     exists coords,
       Float64.UniformGrid._make_coords_initial self center size = Done coords /\
       length coords = S (Z.to_nat n) /\
       (2 <= length coords)%nat /\
       forall k, (k <= Z.to_nat n)%nat ->
         nth k coords nan
         = (center - size / 2 + Float64.of_int (Z.of_nat k) * step)%float).
Proof.
  unfold Float64.UniformGrid._make_coords_initial, Float64.UniformGrid.num_cells.
  split.
  - intros e ->. reflexivity.
  - intros ceiling Hc. cbv zeta. rewrite Hc. cbn [bind].
    set (n := Z.max ceiling 1).
    assert (Hn : Z.to_nat (n + 1) = S (Z.to_nat n)) by (unfold n; lia).
    eexists. split; [reflexivity|].
    assert (Hlen : length
              (map (fun k : Z =>
                      (center - size / 2
                       + Float64.of_int k * Float64.UniformGrid.dl_snapped self size n)%float)
                 (Float64.arange (n + 1))) = S (Z.to_nat n)).
    { now rewrite length_map, arange_length. }
    split; [exact Hlen|]. split; [rewrite Hlen; unfold n; lia|].
    intros k Hk.
    rewrite (map_nth_in _ _ k nan 0%Z) by (rewrite arange_length; lia).
    rewrite arange_nth by (rewrite Hn; lia). reflexivity.
Qed.

Lemma uniform_initial_coords_binary64_witness :
  let self := {| Float64.UniformGrid.dl := 0x1.47ae147ae147bp-7 |} in
  exists coords,
    Float64.UniformGrid._make_coords_initial self 0 0x1.999999999999ap-4
    = Done coords /\
    length coords = 11%nat.
Proof.
  intro self.
  destruct (uniform_initial_coords_binary64 self 0 0x1.999999999999ap-4) as [_ Hdone].
  destruct (Hdone 10%Z) as (coords & Hrun & Hlen & _).
  - vm_compute. reflexivity.
  - exists coords. split; [exact Hrun | exact Hlen].
Defined.

(** C2 as stated fails on binary64 in two ways.  On a domain of size 0 the
    boundaries are 0 and 1 for step 1, so the span is the step and not the
    size.  And the number of intervals is the ceiling of the rounded
    quotient, not of the quotient of the two numbers: for the binary64
    numbers nearest 0.1 and 0.01 the quotient is above 10, its ceiling is
    11, and the code makes 10 intervals. *)
Lemma uniform_span_counterexample_binary64 :
  Float64.UniformGrid._make_coords_initial {| Float64.UniformGrid.dl := 1 |} 0 0
  = Done [0; 1]%float /\
  (1 - 0 =? 0)%float = false /\
  (exists coords,
     Float64.UniformGrid._make_coords_initial
       {| Float64.UniformGrid.dl := 0x1.47ae147ae147bp-7 |} 0 0x1.999999999999ap-4
     = Done coords /\
     length coords = 11%nat) /\
  Qceiling (Float64.to_Q 0x1.999999999999ap-4 / Float64.to_Q 0x1.47ae147ae147bp-7)
  = 11%Z.
Proof.
  split; [vm_compute; reflexivity|]. split; [vm_compute; reflexivity|]. split.
  - eexists. split; vm_compute; reflexivity.
  - vm_compute. reflexivity.
Qed.

(** ** Custom grids *)

(** C1.  The steps are to be repeated until the boundaries cover the
    domain.  With the single step 1 on a domain of size 2.5 centred at 0,
    the code returns the boundaries -0.5 and 0.5 for every non-zero fuel:
    the first lies above [center - size/2 = -1.25] and the last below
    [center + size/2 = 1.25], so the domain is not covered. *)
Theorem custom_does_not_cover_binary64 (fuel : nat) :
  Float64.CustomGrid._make_coords_initial (S fuel)
    {| Float64.CustomGrid.dl := [1]%float |} 0 2.5
  = Done [-0.5; 0.5]%float /\
  (0 - 2.5 / 2 <? -0.5)%float = true /\
  (0.5 <? 0 + 2.5 / 2)%float = true.
Proof. repeat split; vm_compute; reflexivity. Qed.

Lemma prepend_loop_absorbed (fuel : nat) (t : Float64.Coords1D) :
  Float64.CustomGrid.prepend_loop fuel 0x1p-60 1 (1%float :: t) = OutOfFuel.
Proof.
  revert t. induction fuel as [|fuel IH]; intro t; [reflexivity|].
  cbn [Float64.CustomGrid.prepend_loop].
  replace (1 - 0x1p-60)%float with 1%float by reflexivity.
  replace (1 <=? 1)%float with true by reflexivity.
  apply IH.
Qed.

(** C10.  The loops are to stop for every positive step.  With the single
    step [2^-60], center 1 and size [2^-58], the two centred boundaries are
    both 1 after rounding, [bound_min] is 1, and the prepend loop computes
    [1 - 2^-60], which is 1 again, at every iteration: whatever the fuel,
    the call does not return. *)
Theorem custom_loop_absorbs_step_binary64 (fuel : nat) :
  (0 <? 0x1p-60)%float = true /\
  Float64.CustomGrid.clipped {| Float64.CustomGrid.dl := [0x1p-60]%float |} 1 0x1p-58
  = [1; 1]%float /\
  (1 - 0x1p-60 =? 1)%float = true /\
  Float64.CustomGrid._make_coords_initial fuel
    {| Float64.CustomGrid.dl := [0x1p-60]%float |} 1 0x1p-58
  = OutOfFuel.
Proof.
  split; [reflexivity|]. split; [vm_compute; reflexivity|]. split; [reflexivity|].
  unfold Float64.CustomGrid._make_coords_initial.
  replace (Float64.CustomGrid.clipped
             {| Float64.CustomGrid.dl := [0x1p-60]%float |} 1 0x1p-58)
    with [1; 1]%float by (vm_compute; reflexivity).
  cbn [Float64.CustomGrid.dl Float64.first_item Float64.last_item bind].
  replace (1 - 0x1p-58 / 2)%float with 1%float by reflexivity.
  now rewrite prepend_loop_absorbed.
Qed.

(** X20.  On binary64 numbers: when no centred boundary of a custom grid
    with a non-empty step list is left by the clipping, the call raises
    [IndexError] at the first loop test, for every non-zero fuel. *)
Theorem custom_empty_clip_fails_binary64 (self : Float64.CustomGrid.t)
  (center size : float) (fuel : nat) :
  Float64.CustomGrid.dl self <> [] ->
  Float64.CustomGrid.clipped self center size = [] ->
  Float64.CustomGrid._make_coords_initial (S fuel) self center size
  = Raise IndexError.
Proof.
  intros Hdl Hclip. unfold Float64.CustomGrid._make_coords_initial. rewrite Hclip.
  destruct (Float64.CustomGrid.dl self) as [|d0 rest]; [congruence | reflexivity].
Qed.

Lemma custom_empty_clip_fails_binary64_witness :
  Float64.CustomGrid._make_coords_initial 1
    {| Float64.CustomGrid.dl := [10]%float |} 0 1
  = Raise IndexError.
Proof.
  apply (custom_empty_clip_fails_binary64 {| Float64.CustomGrid.dl := [10]%float |} 0 1 0).
  - discriminate.
  - vm_compute. reflexivity.
Defined.

(** ** Symmetry fold *)

(** C6.  The fold is to return a sequence that is its own mirror image
    about the center.  On the strictly increasing boundaries that the
    uniform strategy of step 1 returns for center [1e-6] and size 5, the
    nearest boundary shifted onto the center comes out below the center, the
    [>=] filter drops it, and the fold returns 5 boundaries none of which is
    the center, or within 0.5 of it, and which are not their own mirror
    image. *)
Theorem symmetry_fold_loses_center_binary64 :
  let center := 0x1.0c6f7a0b5ed8dp-20%float in
  exists initial folded,
    Float64.UniformGrid._make_coords_initial {| Float64.UniformGrid.dl := 1 |} center 5
    = Done initial /\
    Float64.strictly_increasing initial = true /\
    Float64.GridSpec1d.symmetry_fold center 1%Z initial = Done folded /\
    length folded = 5%nat /\
    existsb (fun v => (v =? center)%float) folded = false /\
    existsb (fun v => (abs (v - center) <? 0.5)%float) folded = false /\
    Float64.same (Float64.mirror center folded) folded = false.
Proof.
  intro center. eexists _, _.
  split; [vm_compute; reflexivity|]. split; [vm_compute; reflexivity|].
  split; [vm_compute; reflexivity|]. repeat split; vm_compute; reflexivity.
Qed.

(** C7.  A second fold is to return the folded sequence unchanged.  On the
    boundaries of the uniform strategy of step 1 for center [1e-6] and size
    1 the first fold returns the empty array and the second fold raises
    [ValueError]; on those of step 0.1 for center 0.001 and size 0.1 the
    second fold returns a different array. *)
Theorem symmetry_fold_twice_binary64 :
  (let center := 0x1.0c6f7a0b5ed8dp-20%float in
   exists initial,
     Float64.UniformGrid._make_coords_initial {| Float64.UniformGrid.dl := 1 |} center 1
     = Done initial /\
     Float64.strictly_increasing initial = true /\
     Float64.GridSpec1d.symmetry_fold center 1%Z initial = Done [] /\
     Float64.GridSpec1d.symmetry_fold center 1%Z [] = Raise ValueError) /\
  (let center := 0x1.0624dd2f1a9fcp-10%float in
   exists initial folded again,
     Float64.UniformGrid._make_coords_initial
       {| Float64.UniformGrid.dl := 0x1.999999999999ap-4 |} center 0x1.999999999999ap-4
     = Done initial /\
     Float64.GridSpec1d.symmetry_fold center 1%Z initial = Done folded /\
     Float64.GridSpec1d.symmetry_fold center 1%Z folded = Done again /\
     Float64.same again folded = false).
Proof.
  split.
  - intro center. eexists. repeat split; vm_compute; reflexivity.
  - intro center. eexists _, _, _. repeat split; vm_compute; reflexivity.
Qed.



(** ** Uniform specifications *)

(** X6.  [GridSpec.uniform(dl)] is refused for [dl <= 0].  For [dl > 0] it
    gives a specification with the uniform strategy of step [dl] on each of
    the three axes and no wavelength; no axis is Auto, so its wavelength
    resolution returns the absent wavelength for every source list, without
    error. *)
Theorem uniform_spec_no_wavelength {env : Collaborators} (dl : Q) :
  (dl <= 0 -> GridSpec.uniform dl = Raise ValidationError) /\
  (0 < dl ->
   exists spec,
     GridSpec.uniform dl = Done spec /\
     GridSpec.grid_x spec = Uniform {| UniformGrid.dl := dl |} /\
     GridSpec.grid_y spec = Uniform {| UniformGrid.dl := dl |} /\
     GridSpec.grid_z spec = Uniform {| UniformGrid.dl := dl |} /\
     GridSpec.auto_grid_used spec = false /\
     forall sources, GridSpec.get_wavelength spec sources = Done None).
Proof.
  unfold GridSpec.uniform, UniformGrid.init. split.
  - intro Hdl. destruct (Qlt_bool 0 dl) eqn:E; [|reflexivity].
    apply Qlt_bool_iff in E. lra.
  - intro Hdl. apply Qlt_bool_iff in Hdl. rewrite Hdl. cbn [bind].
    eexists. repeat split.
Qed.

Lemma uniform_spec_no_wavelength_witness :
  GridSpec.uniform (env := example_env) (-1) = Raise ValidationError /\
  exists spec,
    GridSpec.uniform (env := example_env) (1 # 4) = Done spec /\
    GridSpec.get_wavelength spec [1; 2] = Done None.
Proof.
  destruct (uniform_spec_no_wavelength (env := example_env) (-1)) as [Hbad _].
  destruct (uniform_spec_no_wavelength (env := example_env) (1 # 4)) as [_ Hgood].
  split; [apply Hbad; discriminate|].
  destruct Hgood as (spec & Hspec & _ & _ & _ & _ & Hw); [reflexivity|].
  exists spec. split; [exact Hspec | apply Hw].
Defined.
